(** * The Mozilla Common Voice dataset loader (gluon/datasets/mcv_asr_dataset.py)

    The constructor of [McvDataset] checks that the files of the dataset are
    there, reads the metadata table and, for every clip of it, lower-cases
    the sentence, rewrites it with the [re.sub] calls of its language, strips
    one trailing space, looks every character up in a dictionary built from
    the vocabulary of the language, and writes a resampled copy of the audio
    unless one is there.

    A Python [str] is a sequence of Unicode code points: a character is its
    code point (an [N]) and a string ([pystr]) is a list of them.  Exceptions
    are values of [result].  The dictionary is a [gmap].  The file system is
    a [disk] that is passed along.

    The source file holds ASCII characters only.  Where a letter outside
    ASCII would be expected it has question marks: an entry ['??'] of a
    vocabulary is a string of two question marks, and in a pattern a question
    mark is the quantifier of the regular expressions.  The model takes the
    file as it is.  The functions of the libraries that the loader calls on
    texts, paths and audio are the members of the class [Libraries]. *)

From Stdlib Require Import NArith Ascii String Lia.
From stdpp Require Import base numbers option list strings gmap.

Local Open Scope N_scope.

(** ** Characters and texts *)

Definition char : Type := N.
Definition pystr : Type := list char.

#[global] Instance char_eq_dec : EqDecision char := N.eq_dec.

(** A string literal of the source, as a text. *)
Fixpoint str (s : string) : pystr :=
  match s with
  | EmptyString => []
  | String a s' => N_of_ascii a :: str s'
  end.

(** The double quote (written with a backslash in the source's patterns). *)
Definition dq : char := 34.

(** ** Exceptions *)

Inductive exn : Type :=
  | AssertionError
  | TypeError
  | AttributeError
  | KeyError (key : char)
  | re_error.

Inductive result (A : Type) : Type :=
  | Return (a : A)
  | Raise (e : exn).
Arguments Return {A} a.
Arguments Raise {A} e.

Definition bind {A B : Type} (r : result A) (k : A -> result B) : result B :=
  match r with
  | Return a => k a
  | Raise e => Raise e
  end.

Notation "x <- e ;; k" := (bind e (fun x => k))
  (at level 100, e at next level, right associativity).

(** A list comprehension whose body may raise: the first exception ends
    it. *)
Fixpoint for_each {A B : Type} (f : A -> result B) (l : list A) : result (list B) :=
  match l with
  | [] => Return []
  | a :: l' => b <- f a ;; bs <- for_each f l' ;; Return (b :: bs)
  end.

(** ** Regular expressions

    The part of Python's [re] that the patterns of the loader use:
    alternatives separated by [|], each a sequence of characters, of
    characters escaped with a backslash, of [\s] and of [$], with the
    quantifiers [?], [+] and [*] and their lazy forms.  A brace is a
    character (none of the patterns follows one with a count).  The patterns
    hold no group, no set, no dot and no caret, and their replacements no
    backslash. *)

Inductive atom : Type :=
  | Lit (c : char)
  | Whitespace.

Inductive item : Type :=
  | One (a : atom)
  | Repeat (lo : nat) (hi : option nat) (lazy : bool) (a : atom)
  | AtEnd.

(** The alternatives, in the order written. *)
Definition regex : Type := list (list item).

(** [\s] on a [str] pattern: the characters [str.isspace] accepts. *)
Definition isspace (c : char) : bool :=
  ((9 <=? c) && (c <=? 13)) || ((28 <=? c) && (c <=? 32))
  || (c =? 133) || (c =? 160) || (c =? 5760)
  || ((8192 <=? c) && (c <=? 8202))
  || (c =? 8232) || (c =? 8233) || (c =? 8239) || (c =? 8287) || (c =? 12288).

Definition accepts (a : atom) (c : char) : bool :=
  match a with
  | Lit x => x =? c
  | Whitespace => isspace c
  end.

(** What a backslash makes of the character after it. *)
Definition escaped (c : char) : atom :=
  if c =? 115 then Whitespace else Lit c.

(** The least and the greatest number of repetitions a quantifier asks for;
    [None] for a character that is no quantifier. *)
Definition quantifier (c : char) : option (nat * option nat) :=
  if c =? 63 then Some (0%nat, Some 1%nat)
  else if c =? 42 then Some (0%nat, None)
  else if c =? 43 then Some (1%nat, None)
  else None.

(** The parser: [done] holds the alternatives read so far and [cur] the items
    of the alternative being read, both latest first.  A quantifier with
    nothing before it in its alternative, or after [$], has "nothing to
    repeat"; a quantifier after a quantified item is a "multiple repeat"; a
    question mark just after a quantifier makes it lazy. *)
Fixpoint parse (done : regex) (cur : list item) (pattern : pystr) : result regex :=
  match pattern with
  | [] => Return (reverse (reverse cur :: done))
  | c :: pattern' =>
      if c =? 124 then parse (reverse cur :: done) [] pattern'
      else if c =? 92 then
        match pattern' with
        | [] => Raise re_error
        | e :: pattern'' => parse done (One (escaped e) :: cur) pattern''
        end
      else if c =? 36 then parse done (AtEnd :: cur) pattern'
      else
        match quantifier c with
        | None => parse done (One (Lit c) :: cur) pattern'
        | Some (lo, hi) =>
            match cur with
            | One a :: cur' =>
                match pattern' with
                | 63 :: pattern'' => parse done (Repeat lo hi true a :: cur') pattern''
                | _ => parse done (Repeat lo hi false a :: cur') pattern'
                end
            | _ => Raise re_error
            end
        end
  end.

Definition re_compile (pattern : pystr) : result regex := parse [] [] pattern.

(** [$] matches at the end of the text and just before a newline that ends
    it. *)
Definition at_eol (s : pystr) : bool :=
  match s with
  | [] => true
  | [c] => c =? 10
  | _ => false
  end.

(** How many characters at the head of [s] the atom accepts. *)
Fixpoint run_length (a : atom) (s : pystr) : nat :=
  match s with
  | c :: s' => if accepts a c then S (run_length a s') else O
  | [] => O
  end.

(** The numbers of repetitions to try on a run of [m] characters, in the
    order in which they are tried: the greatest first, or the least first
    for a lazy quantifier. *)
Definition counts (lo : nat) (hi : option nat) (lazy : bool) (m : nat) : list nat :=
  let top := match hi with Some h => Nat.min h m | None => m end in
  let ns := seq lo (S top - lo) in
  if lazy then ns else reverse ns.

(** The lengths of the matches of a sequence of items at the head of [s], in
    the order in which backtracking finds them. *)
Fixpoint matches (items : list item) (s : pystr) : list nat :=
  match items with
  | [] => [O]
  | One a :: rest =>
      match s with
      | c :: s' => if accepts a c then map S (matches rest s') else []
      | [] => []
      end
  | Repeat lo hi lazy a :: rest =>
      flat_map (fun n => map (Nat.add n) (matches rest (drop n s)))
        (counts lo hi lazy (run_length a s))
  | AtEnd :: rest => if at_eol s then matches rest s else []
  end.

Definition search_at (r : regex) (s : pystr) : list nat :=
  flat_map (fun alternative => matches alternative s) r.

(** [re.sub] with a compiled pattern: the text is scanned from the left, the
    first match found at a position is replaced and the scan goes on behind
    it; [skip] characters of [s] still belong to the match just replaced.
    An empty match is replaced too, and the next match at its position must
    not be empty. *)
Fixpoint sub_from (r : regex) (repl : pystr) (skip : nat) (s : pystr) : pystr :=
  match s with
  | [] =>
      match search_at r [] with
      | [] => []
      | _ :: _ => repl
      end
  | c :: s' =>
      match skip with
      | S k => sub_from r repl k s'
      | O =>
          match search_at r s with
          | [] => c :: sub_from r repl O s'
          | S n :: _ => repl ++ sub_from r repl n s'
          | O :: others =>
              match filter (fun n => n <> O) others with
              | n :: _ => repl ++ repl ++ sub_from r repl (Nat.pred n) s'
              | [] => repl ++ c :: sub_from r repl O s'
              end
          end
      end
  end.

(** [re.sub(pattern, repl, text)]: the pattern is compiled first. *)
Definition re_sub (pattern repl text : pystr) : result pystr :=
  r <- re_compile pattern ;; Return (sub_from r repl O text).

(** ** [str.replace] *)

Fixpoint starts_with (p s : pystr) : bool :=
  match p, s with
  | [], _ => true
  | _ :: _, [] => false
  | a :: p', b :: s' => (a =? b) && starts_with p' s'
  end.

(** [skip] characters of [s] still belong to the occurrence just replaced. *)
Fixpoint replace_from (old new : pystr) (skip : nat) (s : pystr) : pystr :=
  match s with
  | [] => []
  | c :: s' =>
      match skip with
      | S k => replace_from old new k s'
      | O =>
          if starts_with old s then new ++ replace_from old new (Nat.pred (length old)) s'
          else c :: replace_from old new O s'
      end
  end.

(** [s.replace(old, new)] with a non-empty [old]: every occurrence met from
    the left, none overlapping the one before. *)
Definition str_replace (old new s : pystr) : pystr := replace_from old new O s.

(** ** The libraries the loader works with

    The functions of [str], [unicodedata], [unidecode], [os.path], [pandas],
    [librosa] and [soundfile] that the loader calls on texts, paths and
    audio data.

    [read_csv] stands for reading the metadata table (a file that pandas can
    read and that has the columns [path] and [sentence]) and taking these
    two columns, row by row.  A cell of the table is a [str] or not: pandas
    gives the float NaN for an empty cell and a number for a cell that reads
    as one. *)

Inductive field : Type :=
  | Str (s : pystr)
  | NotStr.

Class Libraries : Type := {
  audio : Type;
  (** [str.lower] *)
  lower : pystr -> pystr;
  (** [unicodedata.combining] *)
  combining : char -> N;
  (** [unidecode.unidecode] of one character *)
  unidecode : char -> pystr;
  (** [os.path.expanduser] *)
  expanduser : pystr -> pystr;
  (** [os.path.join] of two components *)
  path_join : pystr -> pystr -> pystr;
  (** [pandas.read_csv], then the two columns, row by row *)
  read_csv : pystr -> list (field * field);
  (** [librosa.load(path, sr=None)]: the samples and their rate *)
  librosa_load : pystr -> audio * N;
  (** [librosa.core.resample y orig_sr target_sr] *)
  lr_resample : audio -> N -> N -> audio
}.

(** What the loader sees and changes of the file system: the paths that
    exist, and what [soundfile.write] has been given, oldest first.  The
    audio [librosa.load] finds at a path is the one that is there when the
    loader starts. *)
Record disk `{Libraries} : Type := Disk {
  files : gset pystr;
  writes : list (pystr * audio * N)
}.

(** ** The loader *)

(** Lines 42 and 223: the languages the assertions let through. *)
Definition supported : list string :=
  ["en"; "fr"; "de"; "it"; "es"; "ca"; "pl"; "ru"; "ru34"]%string.

(** Lines 208-253: [get_vocabulary_for_lang].  The entries are listed as the
    source lists them, line by line. *)
Definition get_vocabulary_for_lang (lang : string) : result (option (list pystr)) :=
  if negb (bool_decide (lang ∈ supported)) then Raise AssertionError
  else if bool_decide (lang = "en") then
    Return (Some (map str [" "; "a"; "b"; "c"; "d"; "e"; "f"; "g"; "h"; "i"; "j"; "k"; "l";
                           "m"; "n"; "o"; "p"; "q"; "r"; "s"]
                  ++ map str ["t"; "u"; "v"; "w"; "x"; "y"; "z"; "'"]))
  else if bool_decide (lang = "fr") then
    Return (Some (map str [" "; "a"; "b"; "c"; "d"; "e"; "f"; "g"; "h"; "i"; "j"; "k"; "l";
                           "m"; "n"; "o"; "p"; "q"; "r"; "s"]
                  ++ map str ["t"; "u"; "v"; "w"; "x"; "y"; "z"; "'"; "??"; "??"; "??"; "??";
                           "??"; "??"; "??"; "??"; "??"; "??"; "??"; "??"]
                  ++ map str ["??"; "??"]))
  else if bool_decide (lang = "de") then
    Return (Some (map str [" "; "a"; "b"; "c"; "d"; "e"; "f"; "g"; "h"; "i"; "j"; "k"; "l";
                           "m"; "n"; "o"; "p"; "q"; "r"; "s"]
                  ++ map str ["t"; "u"; "v"; "w"; "x"; "y"; "z"; "??"; "??"; "??"; "??"]))
  else if bool_decide (lang = "it") then
    Return (Some (map str [" "; "a"; "b"; "c"; "d"; "e"; "f"; "g"; "h"; "i"; "j"; "k"; "l";
                           "m"; "n"; "o"; "p"; "q"; "r"; "s"]
                  ++ map str ["t"; "u"; "v"; "w"; "x"; "y"; "z"; "'"; "??"; "??"; "??"; "??";
                           "??"; "??"; "??"; "??"; "??"; "??"]))
  else if bool_decide (lang = "es") then
    Return (Some (map str [" "; "a"; "b"; "c"; "d"; "e"; "f"; "g"; "h"; "i"; "j"; "k"; "l";
                           "m"; "n"; "o"; "p"; "q"; "r"; "s"]
                  ++ map str ["t"; "u"; "v"; "w"; "x"; "y"; "z"; "'"; "??"; "??"; "??"; "??";
                           "??"; "??"; "??"]))
  else if bool_decide (lang = "ca") then
    Return (Some (map str [" "; "a"; "b"; "c"; "d"; "e"; "f"; "g"; "h"; "i"; "j"; "k"; "l";
                           "m"; "n"; "o"; "p"; "q"; "r"; "s"]
                  ++ map str ["t"; "u"; "v"; "w"; "x"; "y"; "z"; "'"; "??"; "??"; "??"; "??";
                           "??"; "??"; "??"; "??"; "??"; "??"]))
  else if bool_decide (lang = "pl") then
    Return (Some (map str [" "; "a"; "??"; "b"; "c"; "??"; "d"; "e"; "??"; "f"; "g"; "h"; "i";
                           "j"; "k"; "l"; "??"; "m"; "n"; "??"]
                  ++ map str ["o"; "??"; "p"; "r"; "s"; "??"; "t"; "u"; "w"; "y"; "z"; "??";
                           "??"]))
  else if bool_decide (lang = "ru") then
    Return (Some (map str [" "; "??"; "??"; "??"; "??"; "??"; "??"; "??"; "??"; "??"; "??";
                           "??"; "??"; "??"; "??"; "??"; "??"; "??"; "??"; "??"]
                  ++ map str ["??"; "??"; "??"; "??"; "??"; "??"; "??"; "??"; "??"; "??"; "??";
                           "??"; "??"; "??"]))
  else if bool_decide (lang = "ru34") then
    Return (Some (map str [" "; "??"; "??"; "??"; "??"; "??"; "??"; "??"; "??"; "??"; "??";
                           "??"; "??"; "??"; "??"; "??"; "??"; "??"; "??"; "??"]
                  ++ map str ["??"; "??"; "??"; "??"; "??"; "??"; "??"; "??"; "??"; "??"; "??";
                           "??"; "??"]))
  else Return None.

(** *** The pieces of [__init__] that are not [re.sub] *)

(** Line 46: [{c: i for i, c in enumerate(self.vocabulary)}]; an entry
    listed twice keeps its last index. *)
Definition vocabulary_dict (vocabulary : list pystr) : gmap pystr nat :=
  foldl (fun d ic => <[ic.2 := ic.1]> d) ∅ (imap pair vocabulary).

(** Line 82: [sentence.lower()]; only a [str] has the method. *)
Definition sentence_lower `{Libraries} (sentence : field) : result pystr :=
  match sentence with
  | Str s => Return (lower s)
  | NotStr => Raise AttributeError
  end.

(** Line 95: the characters that are not combining marks. *)
Definition drop_combining `{Libraries} (text : pystr) : pystr :=
  filter (fun c => combining c = 0) text.

(** Lines 151, 157, 163, 171: a character that is no entry of the vocabulary
    is replaced by its transliteration. *)
Definition transliterate `{Libraries} (vocabulary : list pystr) (text : pystr) : pystr :=
  flat_map (fun c => if bool_decide ([c] ∈ vocabulary) then [c] else unidecode c) text.

(** Line 196: [[vocabulary_dict[c] for c in text]]; a character is looked up
    as the string that holds it alone. *)
Definition encode_text (vocabulary_dict : gmap pystr nat) (text : pystr) : result (list nat) :=
  for_each (fun c => match vocabulary_dict !! [c] with
                     | Some i => Return i
                     | None => Raise (KeyError c)
                     end) text.

(** Line 192: the pattern and the replacement of the rule of "ru34". *)
Definition merged_letter : pystr := str "??".
Definition merged_into : pystr := str "??".

(** *** The rule cascades (lines 84-192)

    Every line of a branch is one step: the text it gives is the text of the
    next line, and an exception ends the branch. *)

(** Lines 85-93: the branch of "en". *)
Definition branch_en (text : pystr) : result pystr :=
  text <- re_sub (str "\.|-|???|???") (str " ") text ;;
  text <- re_sub (str "&") (str " and ") text ;;
  text <- re_sub (str "??") (str "o") text ;;
  text <- re_sub (str "??|??") (str "a") text ;;
  text <- re_sub (str "??") (str "e") text ;;
  text <- re_sub (str ",|;|:|!|\?|" ++ [dq] ++ str "|???|???|???|???|\(|\)") [] text ;;
  text <- re_sub (str "\s+") (str " ") text ;;
  text <- re_sub (str " '") (str " ") text ;;
  text <- re_sub (str "' ") (str " ") text ;;
  Return text.

(** Lines 95-122: the branch of "fr". *)
Definition branch_fr `{Libraries} (text : pystr) : result pystr :=
  let text := drop_combining text in
  text <- re_sub (str "\.|-|???|???|=|??|\*|???|/|???|_|???") (str " ") text ;;
  text <- re_sub (str ",|;|:|!|\?|??|???|???|" ++ [dq] ++ str "|???|??|??|\(|\)") [] text ;;
  text <- re_sub (str "???|???|???|???|???|???|\$|??|???|???") [] text ;;
  text <- re_sub (str "???|??") (str "'") text ;;
  text <- re_sub (str "&") (str " and ") text ;;
  text <- re_sub (str "??") (str "oe") text ;;
  text <- re_sub (str "??") (str "ae") text ;;
  text <- re_sub (str "??|??|??|??|??|??|??") (str "a") text ;;
  text <- re_sub (str "??|??|??|??|???|??") (str "o") text ;;
  text <- re_sub (str "??|??|??") (str "e") text ;;
  text <- re_sub (str "??|??") (str "i") text ;;
  text <- re_sub (str "??|??") (str "u") text ;;
  text <- re_sub (str "??") (str "y") text ;;
  text <- re_sub (str "??|??|??|??") (str "s") text ;;
  text <- re_sub (str "??|??|??") (str "z") text ;;
  text <- re_sub (str "??|??|???") (str "n") text ;;
  text <- re_sub (str "??|??") (str "l") text ;;
  text <- re_sub (str "??|??") (str "c") text ;;
  text <- re_sub (str "??") (str "ya") text ;;
  text <- re_sub (str "??") (str "r") text ;;
  text <- re_sub (str "??") (str "d") text ;;
  text <- re_sub (str "??") (str "t") text ;;
  text <- re_sub (str "??") (str "th") text ;;
  text <- re_sub (str "??") (str "g") text ;;
  text <- re_sub (str "??") (str "ss") text ;;
  text <- re_sub (str "??") (str "mu") text ;;
  text <- re_sub (str "\s+") (str " ") text ;;
  Return text.

(** Lines 124-144: the branch of "de". *)
Definition branch_de (text : pystr) : result pystr :=
  text <- re_sub (str "\.|-|???|???|/|_|???") (str " ") text ;;
  text <- re_sub
            (str ",|;|:|!|\?|" ++ [dq] ++ str "|'|???|???|??|??|???|???|???|" ++ [dq]
             ++ str "|???|??|??|???|???|\(|\)")
            [] text ;;
  text <- re_sub (str "??|???|???|???") [] text ;;
  text <- re_sub (str "&") (str " and ") text ;;
  text <- re_sub (str "??") (str "a") text ;;
  text <- re_sub (str "??") (str "ae") text ;;
  text <- re_sub (str "??|??|??|??|??|??|??") (str "a") text ;;
  text <- re_sub (str "??|??|??|???|??|??|??") (str "o") text ;;
  text <- re_sub (str "??|??|??|??|??") (str "e") text ;;
  text <- re_sub (str "??|???") (str "u") text ;;
  text <- re_sub (str "??|??|??") (str "i") text ;;
  text <- re_sub (str "??|??|??|??") (str "s") text ;;
  text <- re_sub (str "??|??") (str "c") text ;;
  text <- re_sub (str "??") (str "d") text ;;
  text <- re_sub (str "??") (str "g") text ;;
  text <- re_sub (str "??") (str "l") text ;;
  text <- re_sub (str "??") (str "r") text ;;
  text <- re_sub (str "??") (str "n") text ;;
  text <- re_sub (str "??") (str "t") text ;;
  text <- re_sub (str "??|??") (str "z") text ;;
  text <- re_sub (str "\s+") (str " ") text ;;
  Return text.

(** Lines 146-152: the branch of "it". *)
Definition branch_it `{Libraries} (vocabulary : list pystr) (text : pystr) : result pystr :=
  text <- re_sub (str "\.|-|???|???|/|_|???") (str " ") text ;;
  text <- re_sub
            (str ",|;|:|!|\?|" ++ [dq] ++ str "|???|???|" ++ [dq]
             ++ str "|???|??|??|???|???|<|>|\(|\)")
            [] text ;;
  text <- re_sub (str "\$|#|???") [] text ;;
  text <- re_sub (str "???|`") (str "'") text ;;
  text <- re_sub (str "??") (str "a") text ;;
  let text := transliterate vocabulary text in
  text <- re_sub (str "\s+") (str " ") text ;;
  Return text.

(** Lines 154-158: the branch of "es". *)
Definition branch_es `{Libraries} (vocabulary : list pystr) (text : pystr) : result pystr :=
  text <- re_sub (str "\.|-|???|???|/|=|_|{|???") (str " ") text ;;
  text <- re_sub
            (str ",|;|:|!|\?|" ++ [dq] ++ str "|???|???|" ++ [dq]
             ++ str "|???|??|??|???|???|<|>|\(|\)|??|??")
            [] text ;;
  text <- re_sub (str "???|???") [] text ;;
  let text := transliterate vocabulary text in
  text <- re_sub (str "\s+") (str " ") text ;;
  Return text.

(** Lines 160-164: the branch of "ca". *)
Definition branch_ca `{Libraries} (vocabulary : list pystr) (text : pystr) : result pystr :=
  text <- re_sub (str "\.|-|???|???|/|=|_|??|@|\+|???") (str " ") text ;;
  text <- re_sub
            (str ",|;|:|!|\?|" ++ [dq] ++ str "|???|???|" ++ [dq]
             ++ str "|???|??|??|???|???|<|>|\(|\)|??|??")
            [] text ;;
  text <- re_sub (str "???|???") [] text ;;
  let text := transliterate vocabulary text in
  text <- re_sub (str "\s+") (str " ") text ;;
  Return text.

(** Lines 166-172: the branch of "pl". *)
Definition branch_pl `{Libraries} (vocabulary : list pystr) (text : pystr) : result pystr :=
  text <- re_sub (str "\.|-|???|???|/|=|_|??|@|\+|???") (str " ") text ;;
  text <- re_sub
            (str ",|;|:|!|\?|" ++ [dq] ++ str "|???|???|" ++ [dq]
             ++ str "|???|??|??|???|???|<|>|\(|\)")
            [] text ;;
  text <- re_sub (str "q") (str "k") text ;;
  text <- re_sub (str "x") (str "ks") text ;;
  text <- re_sub (str "v") (str "w") text ;;
  let text := transliterate vocabulary text in
  text <- re_sub (str "\s+") (str " ") text ;;
  Return text.

(** Lines 174-192: the branch of "ru" and "ru34". *)
Definition branch_ru (lang : string) (text : pystr) : result pystr :=
  text <- re_sub (str "????-") (str "????") text ;;
  text <- re_sub (str "????-") (str "????") text ;;
  text <- re_sub (str "-????") (str "????") text ;;
  text <- re_sub (str "\.|???|-|???|???|???") (str " ") text ;;
  text <- re_sub (str ",|;|:|!|\?|???|???|" ++ [dq] ++ str "|???|???|??|??|'") [] text ;;
  text <- re_sub (str "m") (str "??") text ;;
  text <- re_sub (str "o") (str "??") text ;;
  text <- re_sub (str "z") (str "??") text ;;
  text <- re_sub (str "i") (str "??") text ;;
  text <- re_sub (str "l") (str "??") text ;;
  text <- re_sub (str "a") (str "??") text ;;
  text <- re_sub (str "f") (str "??") text ;;
  text <- re_sub (str "r") (str "??") text ;;
  text <- re_sub (str "e") (str "??") text ;;
  text <- re_sub (str "x") (str "????") text ;;
  text <- re_sub (str "h") (str "??") text ;;
  text <- re_sub (str "\s+") (str " ") text ;;
  text <- (if bool_decide (lang = "ru34") then re_sub merged_letter merged_into text
           else Return text) ;;
  Return text.
(** Lines 82-194: the text of one sentence, as line 196 encodes it. *)
Definition normalize_text `{Libraries} (vocabulary : list pystr) (lang : string)
    (sentence : field) : result pystr :=
  text <- sentence_lower sentence ;;
  text <- (if bool_decide (lang = "en") then branch_en text
           else if bool_decide (lang = "fr") then branch_fr text
           else if bool_decide (lang = "de") then branch_de text
           else if bool_decide (lang = "it") then branch_it vocabulary text
           else if bool_decide (lang = "es") then branch_es vocabulary text
           else if bool_decide (lang = "ca") then branch_ca vocabulary text
           else if bool_decide (lang = "pl") then branch_pl vocabulary text
           else if bool_decide (lang ∈ ["ru"; "ru34"]) then branch_ru lang text
           else Return text) ;;
  re_sub (str " $") [] text.

(** *** The files (lines 54-79 and 200-206) *)

(** [os.path.exists] *)
Definition path_exists `{Libraries} (d : disk) (path : pystr) : bool :=
  bool_decide (path ∈ files d).

(** [soundfile.write file data samplerate] *)
Definition soundfile_write `{Libraries} (d : disk) (file : pystr) (data : audio)
    (samplerate : N) : disk :=
  Disk _ ({[file]} ∪ files d) (writes d ++ [(file, data, samplerate)]).

(** Line 45. *)
Definition desired_audio_sample_rate : N := 16000.

(** Line 57: "ru34" has no directory of its own. *)
Definition lang_ (lang : string) : string :=
  if bool_decide (lang <> "ru34"%string) then lang else "ru"%string.

(** Lines 54-73: the paths. *)
Definition data_dir_path `{Libraries} (root : pystr) (lang : string) : pystr :=
  path_join (expanduser root) (str (lang_ lang)).

Definition metainfo_file_path `{Libraries} (root : pystr) (lang : string) (subset : pystr)
  : pystr :=
  path_join (data_dir_path root lang) (subset ++ str ".tsv").

Definition clips_dir_path `{Libraries} (root : pystr) (lang : string) : pystr :=
  path_join (data_dir_path root lang) (str "clips").

(** Lines 76-79. *)
Definition mp3_file_path `{Libraries} (clips_dir_path clip_file_name : pystr) : pystr :=
  path_join clips_dir_path clip_file_name.

Definition wav_file_name (clip_file_name : pystr) : pystr :=
  str_replace (str ".mp3") (str ".wav") clip_file_name.

Definition wav_file_path `{Libraries} (clips_dir_path clip_file_name : pystr) : pystr :=
  path_join clips_dir_path (wav_file_name clip_file_name).

(** Lines 200-206: the end of the loop body. *)
Definition convert `{Libraries} (clips_dir_path clip_file_name : pystr) (d : disk) : disk :=
  if path_exists d (wav_file_path clips_dir_path clip_file_name) then d
  else
    let '(x, sr) := librosa_load (mp3_file_path clips_dir_path clip_file_name) in
    if bool_decide (desired_audio_sample_rate <> sr) then
      let y := lr_resample x sr desired_audio_sample_rate in
      soundfile_write d (wav_file_path clips_dir_path clip_file_name) y
        desired_audio_sample_rate
    else d.

(** Lines 75-206: the loop over the clips; the disk it leaves, and the pairs
    it appends to [self.data] or the exception that ends it.  Joining a
    path with a cell that is no [str] is a [TypeError] (line 76). *)
Fixpoint clips_loop `{Libraries} (vocabulary : list pystr) (lang : string)
    (clips_dir_path : pystr) (rows : list (field * field)) (d : disk)
  : disk * result (list (pystr * list nat)) :=
  match rows with
  | [] => (d, Return [])
  | (NotStr, _) :: _ => (d, Raise TypeError)
  | (Str clip_file_name, sentence) :: rows' =>
      if negb (path_exists d (mp3_file_path clips_dir_path clip_file_name))
      then (d, Raise AssertionError)
      else
        match (text <- normalize_text vocabulary lang sentence ;;
               encode_text (vocabulary_dict vocabulary) text) with
        | Raise e => (d, Raise e)
        | Return text =>
            let '(d', r) :=
              clips_loop vocabulary lang clips_dir_path rows'
                (convert clips_dir_path clip_file_name d) in
            (d', data <- r ;;
                 Return ((wav_file_path clips_dir_path clip_file_name, text) :: data))
        end
  end.

(** [__init__] (lines 42-206): the disk it leaves, and the vocabulary and the
    data it stores or the exception it raises.  The base class, which is not
    among the source files, is left out. *)
Definition McvDataset_init `{Libraries} (root : pystr) (lang : string) (subset : pystr)
    (d : disk) : disk * result (list pystr * list (pystr * list nat)) :=
  if negb (bool_decide (lang ∈ supported)) then (d, Raise AssertionError)
  else
    match get_vocabulary_for_lang lang with
    | Raise e => (d, Raise e)
    | Return None => (d, Raise TypeError)
    | Return (Some vocabulary) =>
        if negb (path_exists d (expanduser root)) then (d, Raise AssertionError)
        else if negb (path_exists d (data_dir_path root lang)) then (d, Raise AssertionError)
        else if negb (path_exists d (metainfo_file_path root lang subset))
        then (d, Raise AssertionError)
        else
          let rows := read_csv (metainfo_file_path root lang subset) in
          if negb (path_exists d (clips_dir_path root lang)) then (d, Raise AssertionError)
          else
            let '(d', r) := clips_loop vocabulary lang (clips_dir_path root lang) rows d in
            (d', data <- r ;; Return (vocabulary, data))
    end.

(** *** The two steps of the loader, per language *)

(** The vocabulary [__init__] stores for a language (line 43). *)
Definition vocabulary (lang : string) : list pystr :=
  match get_vocabulary_for_lang lang with
  | Return (Some v) => v
  | _ => []
  end.

Definition normalize `{Libraries} (lang : string) (sentence : pystr) : result pystr :=
  normalize_text (vocabulary lang) lang (Str sentence).

Definition encode (lang : string) (text : pystr) : result (list nat) :=
  encode_text (vocabulary_dict (vocabulary lang)) text.

(** Modelled from the spec: the decoder of a label is not among the source
    files.  The spec's words are "decoding an encoded sequence back through
    the vocabulary table": every index is looked up in the vocabulary, and
    the entries found are put one after the other. *)
Definition decode (lang : string) (label : list nat) : option pystr :=
  entries ← mapM (fun i => vocabulary lang !! i) label; Some (concat entries).

(** ** [McvMetaInfo] (lines 256-332)

    The attributes the class sets itself.  Its base class is not among the
    source files: what it adds is left out, and with it the method [update],
    which calls the base class first; so are the references to the dataset
    class and to the transform.  A dictionary of keyword arguments is a
    [gmap] on the names of the keywords.  Indexing the list of metric
    arguments at 0 fails on an empty list: [update_from_dataset] is [None]
    then. *)

Module McvMetaInfo.

Record t : Type := Build {
  label : string;
  short_label : string;
  root_dir_name : string;
  lang : string;
  dataset_class_extra_kwargs : gmap string string;
  ml_type : string;
  num_classes : option nat;
  val_metric_extra_kwargs : list (gmap string (option (list pystr)));
  val_metric_capts : list string;
  val_metric_names : list string;
  test_metric_extra_kwargs : list (gmap string (option (list pystr)));
  test_metric_capts : list string;
  test_metric_names : list string;
  saver_acc_ind : nat
}.



End McvMetaInfo.

(** ** Notions used in the statements and in the proofs *)

(** What [re.sub("\s+", " ", text)] gives: [in_run] says that the previous
    character was white space, whose run has already been replaced by one
    space. *)
Fixpoint collapse_from (in_run : bool) (s : pystr) : pystr :=
  match s with
  | [] => []
  | c :: s' =>
      if isspace c
      then (if in_run then collapse_from true s' else 32 :: collapse_from true s')
      else c :: collapse_from false s'
  end.

(** What the substitution of line 194 gives: the first space that [$]
    follows goes. *)
Fixpoint strip_space_eol (s : pystr) : pystr :=
  match s with
  | [] => []
  | c :: s' => if (c =? 32) && at_eol s' then s' else c :: strip_space_eol s'
  end.

(** What the substitution of one letter gives. *)
Definition replace_letter (a : char) (repl : pystr) (s : pystr) : pystr :=
  flat_map (fun c => if c =? a then repl else [c]) s.

(** [tidy_from prev s]: white space in [s] is single spaces, none next to
    another, where [prev] says that a space comes just before [s]. *)
Fixpoint tidy_from (prev : bool) (s : pystr) : bool :=
  match s with
  | [] => true
  | c :: s' =>
      if isspace c then (c =? 32) && negb prev && tidy_from true s'
      else tidy_from false s'
  end.

(** The four paths that lines 55, 59, 62 and 73 assert to exist. *)
Definition files_present `{Libraries} (root : pystr) (lang : string) (subset : pystr)
    (d : disk) : bool :=
  path_exists d (expanduser root)
  && path_exists d (data_dir_path root lang)
  && path_exists d (metainfo_file_path root lang subset)
  && path_exists d (clips_dir_path root lang).

(** What the first row of the table raises in a supported language. *)
Definition first_row_exception `{Libraries} (clips_dir_path : pystr) (d : disk)
    (row : field * field) : exn :=
  match row with
  | (NotStr, _) => TypeError
  | (Str clip_file_name, sentence) =>
      if negb (path_exists d (mp3_file_path clips_dir_path clip_file_name))
      then AssertionError
      else match sentence with
           | NotStr => AttributeError
           | Str _ => re_error
           end
  end.




(** ** Libraries and a disk to run the loader on

    [str.lower] on ASCII, no combining marks, a transliteration that keeps
    ASCII and drops the rest, paths joined with a slash, and clips sampled
    at 48000 Hz; a disk with the files of three languages under the root
    "r". *)

Definition ascii_lower_char (c : char) : char :=
  if (65 <=? c) && (c <=? 90) then c + 32 else c.

Definition ascii_lower (s : pystr) : pystr := map ascii_lower_char s.

Definition no_combining (c : char) : N := 0.

Definition ascii_unidecode (c : char) : pystr := if c <? 128 then [c] else [].

Definition a_table (path : pystr) : list (field * field) :=
  if bool_decide (path = str "r/ru/dev.tsv") then []
  else if bool_decide (path = str "r/de/dev.tsv") then [(Str (str "c"), Str (str "Ja"))]
  else [(Str (str "a.mp3"), Str (str "Hello, World!")); (Str (str "c"), NotStr)].

Definition a_library : Libraries :=
  {| audio := list N;
     lower := ascii_lower;
     combining := no_combining;
     unidecode := ascii_unidecode;
     expanduser := fun path => path;
     path_join := fun a b => a ++ str "/" ++ b;
     read_csv := a_table;
     librosa_load := fun _ => ([], 48000);
     lr_resample := fun y _ _ => y |}.

Definition a_disk : @disk a_library :=
  Disk a_library
    (list_to_set
       [ str "r";
         str "r/en"; str "r/en/dev.tsv"; str "r/en/clips"; str "r/en/clips/a.mp3";
         str "r/en/clips/c";
         str "r/de"; str "r/de/dev.tsv"; str "r/de/clips"; str "r/de/clips/c";
         str "r/ru"; str "r/ru/dev.tsv"; str "r/ru/clips"; str "r/ru/clips/b.mp3" ])
    [].



(** * Proofs *)

(** ** Languages and vocabularies *)

Lemma supported_cases lang :
  lang ∈ supported ->
  lang = "en" ∨ lang = "fr" ∨ lang = "de" ∨ lang = "it" ∨ lang = "es"
  ∨ lang = "ca" ∨ lang = "pl" ∨ lang = "ru" ∨ lang = "ru34".
Proof. unfold supported. rewrite !elem_of_cons, elem_of_nil. tauto. Qed.

Ltac each_language H :=
  apply supported_cases in H;
  destruct H as [->|[->|[->|[->|[->|[->|[->|[->| ->]]]]]]]].

Lemma get_vocabulary_supported lang :
  lang ∈ supported -> get_vocabulary_for_lang lang = Return (Some (vocabulary lang)).
Proof. intros H. each_language H; reflexivity. Qed.


(** ** The dictionary *)

(** The dictionary maps an entry of the vocabulary to an index that holds
    it, and nothing else. *)
Lemma dict_fold (v : list pystr) : forall (g : nat -> nat) (acc : gmap pystr nat) (c : pystr),
  (c ∉ v -> foldl (fun d ic => <[ic.2 := ic.1]> d) acc (imap (fun i x => (g i, x)) v) !! c
            = acc !! c)
  ∧ (c ∈ v -> exists j, v !! j = Some c
            ∧ foldl (fun d ic => <[ic.2 := ic.1]> d) acc (imap (fun i x => (g i, x)) v) !! c
              = Some (g j)).
Proof.
  induction v as [|x v IH]; intros g acc c.
  - split; [reflexivity|]. intros H. by apply elem_of_nil in H.
  - cbn [imap foldl fst snd].
    change (imap ((fun i x0 => (g i, x0)) ∘ S) v)
      with (imap (fun i x0 => ((fun i => g (S i)) i, x0)) v).
    destruct (IH (fun i => g (S i)) (<[x:=g 0%nat]> acc) c) as [IHn IHy].
    destruct (decide (c ∈ v)) as [Hin|Hnin].
    + split; [intros Hn; exfalso; apply Hn; by right|].
      intros _. destruct (IHy Hin) as (j & Hj & Hl).
      exists (S j). split; [exact Hj|exact Hl].
    + split.
      * intros Hn. rewrite (IHn Hnin).
        apply lookup_insert_ne. intros ->. apply Hn. by left.
      * intros Hc. apply elem_of_cons in Hc as [->|Hc]; [|done].
        exists 0%nat. split; [reflexivity|].
        rewrite (IHn Hnin). apply lookup_insert_eq.
Qed.

Lemma vocabulary_dict_None (v : list pystr) c : c ∉ v -> vocabulary_dict v !! c = None.
Proof. intros H. unfold vocabulary_dict. by rewrite (proj1 (dict_fold v id ∅ c) H). Qed.

Lemma vocabulary_dict_Some (v : list pystr) c :
  c ∈ v -> exists j, v !! j = Some c ∧ vocabulary_dict v !! c = Some j.
Proof. intros H. exact (proj2 (dict_fold v id ∅ c) H). Qed.

Lemma vocabulary_dict_lookup (v : list pystr) c j :
  vocabulary_dict v !! c = Some j -> v !! j = Some c.
Proof.
  intros H. destruct (decide (c ∈ v)) as [Hin|Hnin].
  - destruct (vocabulary_dict_Some v c Hin) as (j' & Hj & Hl). congruence.
  - rewrite vocabulary_dict_None in H by done. discriminate.
Qed.

Lemma vocabulary_dict_snoc (v : list pystr) x :
  vocabulary_dict (v ++ [x]) = <[x := length v]> (vocabulary_dict v).
Proof.
  unfold vocabulary_dict. rewrite imap_app, foldl_app. cbn. by rewrite Nat.add_0_r.
Qed.

(** ** Encoding *)


Lemma encode_text_Return (d : gmap pystr nat) (t : pystr) :
  Forall (fun c => is_Some (d !! [c])) t ->
  exists label, encode_text d t = Return label
    ∧ Forall2 (fun c i => d !! [c] = Some i) t label.
Proof.
  induction 1 as [|c t [i Hi] _ (label & Hl & HF)].
  - exists []. split; [reflexivity|constructor].
  - exists (i :: label). unfold encode_text in *. cbn. rewrite Hi. cbn. rewrite Hl. cbn.
    split; [reflexivity|by constructor].
Qed.

Lemma encode_text_Raise (d : gmap pystr nat) (pre : pystr) c (post : pystr) :
  Forall (fun c => is_Some (d !! [c])) pre -> d !! [c] = None ->
  encode_text d (pre ++ c :: post) = Raise (KeyError c).
Proof.
  intros Hpre Hc. induction Hpre as [|x pre [i Hi] _ IH]; unfold encode_text in *; cbn.
  - by rewrite Hc.
  - rewrite Hi. cbn. by rewrite IH.
Qed.

Lemma encode_text_Forall2 (d : gmap pystr nat) (t : pystr) label :
  encode_text d t = Return label -> Forall2 (fun c i => d !! [c] = Some i) t label.
Proof.
  revert label. induction t as [|c t IH]; intros label; unfold encode_text in *; cbn.
  - intros [= <-]. constructor.
  - destruct (d !! [c]) as [i|] eqn:Hi; [|discriminate]. cbn.
    destruct (for_each _ t) as [l|]; [|discriminate]. cbn.
    intros [= <-]. constructor; [exact Hi|by apply IH].
Qed.


Lemma encode_Return lang (t : pystr) :
  Forall (fun c => [c] ∈ vocabulary lang) t ->
  exists label, encode lang t = Return label
    ∧ Forall2 (fun c i => vocabulary lang !! i = Some [c]) t label.
Proof.
  intros Ht. destruct (encode_text_Return (vocabulary_dict (vocabulary lang)) t)
    as (label & Hl & HF).
  - eapply Forall_impl; [exact Ht|]. intros c Hc.
    destruct (vocabulary_dict_Some _ [c] Hc) as (j & _ & Hj). by exists j.
  - exists label. split; [exact Hl|].
    eapply Forall2_impl; [exact HF|]. intros c j. apply vocabulary_dict_lookup.
Qed.

Lemma encode_one_char lang c (i : nat) :
  vocabulary_dict (vocabulary lang) !! [c] = Some i -> encode lang [c] = Return [i].
Proof. intros H. unfold encode, encode_text. cbn. by rewrite H. Qed.

Lemma space_index lang :
  lang ∈ supported -> vocabulary_dict (vocabulary lang) !! [32] = Some 0%nat.
Proof. intros H. each_language H; vm_compute; reflexivity. Qed.

Lemma letter_index lang c :
  lang ∈ ["en"; "fr"; "de"; "it"; "es"; "ca"]%string -> 97 <= c ∧ c <= 122 ->
  vocabulary_dict (vocabulary lang) !! [c] = Some (N.to_nat (c - 96)).
Proof.
  intros H Hc.
  assert (exists i, (i < 26)%nat ∧ c = 97 + N.of_nat i) as (i & Hi & ->).
  { exists (N.to_nat (c - 97)). lia. }
  clear Hc. rewrite !elem_of_cons, elem_of_nil in H.
  destruct H as [->|[->|[->|[->|[->|[->|[]]]]]]];
    do 26 (destruct i as [|i]; [vm_compute; reflexivity|]); lia.
Qed.

(** ** The claims about the vocabularies and the encoding *)

(** C1 (as amended): for every language and every text, encoding maps each
    character of the vocabulary to an index that holds this character in the
    vocabulary (one index per character, in order), and at the first
    character that is absent from the vocabulary it raises [KeyError] with
    that character as key.  The exception carries the character only, not
    the language. *)
Theorem encode_maps_or_raises lang (t : pystr) :
  (Forall (fun c => [c] ∈ vocabulary lang) t ->
     exists label, encode lang t = Return label
       ∧ Forall2 (fun c i => vocabulary lang !! i = Some [c]) t label)
  ∧ (forall (pre : pystr) c (post : pystr),
       t = pre ++ c :: post ->
       Forall (fun c => [c] ∈ vocabulary lang) pre -> [c] ∉ vocabulary lang ->
       encode lang t = Raise (KeyError c)).
Proof.
  split; [apply encode_Return|].
  intros pre c post -> Hpre Hc. unfold encode. apply encode_text_Raise.
  - eapply Forall_impl; [exact Hpre|]. intros x Hx.
    destruct (vocabulary_dict_Some _ [x] Hx) as (j & _ & Hj). by exists j.
  - by apply vocabulary_dict_None.
Qed.

(** C3: for every language and every text over its vocabulary, encoding
    succeeds and decoding the label through the vocabulary table gives the
    text back, character for character. *)
Theorem decode_encode lang (t : pystr) :
  Forall (fun c => [c] ∈ vocabulary lang) t ->
  exists label, encode lang t = Return label ∧ decode lang label = Some t.
Proof.
  intros Ht. destruct (encode_Return lang t Ht) as (label & Hl & HF).
  exists label. split; [exact Hl|].
  unfold decode.
  assert (mapM (fun i => vocabulary lang !! i) label = Some (map (fun c => [c]) t)) as ->.
  { apply mapM_Some. apply Forall2_flip. apply Forall2_fmap_l.
    eapply Forall2_impl; [exact HF|]. by intros c i Hc. }
  cbn. f_equal. clear. induction t as [|c t IH]; cbn; [reflexivity|by rewrite IH].
Qed.

(** C4: the vocabulary returned for "ru" has exactly 34 entries and the one
    returned for "ru34" exactly 33; the two differ by one entry, which "ru"
    has and "ru34" has not: the entries of "ru34" are those of "ru" in their
    order without this one.  The entry is written as the letter that line
    192 replaces in "ru34", and the letter line 192 writes in its place is
    an entry of both. *)
Theorem russian_vocabulary_lengths :
  get_vocabulary_for_lang "ru" = Return (Some (vocabulary "ru"))
  ∧ get_vocabulary_for_lang "ru34" = Return (Some (vocabulary "ru34"))
  ∧ length (vocabulary "ru") = 34%nat
  ∧ length (vocabulary "ru34") = 33%nat
  ∧ (exists before after : list pystr,
       vocabulary "ru" = before ++ merged_letter :: after
       ∧ vocabulary "ru34" = before ++ after)
  ∧ merged_into ∈ vocabulary "ru34"
  ∧ merged_into ∈ vocabulary "ru".
Proof.
  split; [reflexivity|]. split; [reflexivity|]. split; [reflexivity|].
  split; [reflexivity|]. split.
  - exists (vocabulary "ru34"), []. split; [reflexivity|by rewrite app_nil_r].
  - split; apply (bool_decide_unpack _); vm_compute; exact I.
Qed.

(** ** More on the dictionary and the encoding *)

(** X1: the dictionary of line 46 maps an entry to an index exactly when
    the vocabulary holds the entry at this index and at no later one: an
    entry listed twice is known by its last index, and an entry that is not
    listed has no index. *)
Theorem vocabulary_dict_last_index (v : list pystr) (c : pystr) j :
  vocabulary_dict v !! c = Some j
  <-> v !! j = Some c ∧ forall k, (j < k)%nat -> v !! k <> Some c.
Proof.
  revert j. induction v as [|x v IH] using rev_ind; intros j.
  - change (vocabulary_dict []) with (∅ : gmap pystr nat). rewrite lookup_empty.
    split; [discriminate|]. intros [H _]. discriminate.
  - rewrite vocabulary_dict_snoc. destruct (decide (c = x)) as [->|Hne].
    + rewrite lookup_insert_eq. split.
      * intros [= <-]. split; [by apply list_lookup_middle|].
        intros k Hk Hc. apply lookup_lt_Some in Hc.
        rewrite length_app in Hc. cbn in Hc. lia.
      * intros [Hj Hlast]. f_equal. apply lookup_lt_Some in Hj as Hlt.
        rewrite length_app in Hlt. cbn in Hlt.
        destruct (decide (j = length v)) as [->|Hjv]; [reflexivity|].
        exfalso. apply (Hlast (length v)); [lia|]. by apply list_lookup_middle.
    + rewrite lookup_insert_ne by done. rewrite IH.
      assert (forall k, (v ++ [x]) !! k = Some c <-> v !! k = Some c) as Hk.
      { intros k. destruct (decide (k < length v)%nat) as [Hlt|Hge].
        - by rewrite lookup_app_l.
        - rewrite lookup_app_r by lia. split.
          + destruct (k - length v)%nat; cbn; [|discriminate]. intros [= ->]. done.
          + intros H. apply lookup_lt_Some in H. lia. }
      split; intros [H1 H2]; (split; [by apply Hk|]);
        intros k Hlt Hc; apply (H2 k Hlt); by apply Hk.
Qed.

(** X2: two different texts that a language can encode have different
    labels: the encoding loses nothing of a text it accepts. *)
Theorem encode_injective lang (t1 t2 : pystr) label1 label2 :
  encode lang t1 = Return label1 -> encode lang t2 = Return label2 ->
  t1 <> t2 -> label1 <> label2.
Proof.
  intros H1 H2 Hne <-. apply Hne. apply encode_text_Forall2 in H1, H2.
  revert t2 H2 Hne. induction H1 as [|c i t l Hc _ IH]; intros t2 H2 _;
    inversion H2 as [|c' i' t' l' Hc' Ht']; subst; [reflexivity|].
  f_equal.
  - apply vocabulary_dict_lookup in Hc, Hc'. congruence.
  - destruct (decide (t = t')) as [E|E]; [exact E|]. by apply IH.
Qed.

(** X5: in every supported language the space has index 0; in "en", "fr",
    "de", "it", "es" and "ca" the letters a to z have the indices 1 to 26, so
    that a text of these characters has the same label in the six
    languages. *)
Theorem shared_indices lang :
  lang ∈ supported ->
  encode lang [32] = Return [0%nat]
  ∧ (lang ∈ ["en"; "fr"; "de"; "it"; "es"; "ca"]%string ->
     forall c, 97 <= c ∧ c <= 122 -> encode lang [c] = Return [N.to_nat (c - 96)]).
Proof.
  intros H. split; [by apply encode_one_char, space_index|].
  intros H' c Hc. by apply encode_one_char, letter_index.
Qed.

(** ** The substitutions *)

(** A pattern that does not compile: [re.sub] raises whatever the text. *)
Lemma re_sub_error (pattern repl text : pystr) :
  re_compile pattern = Raise re_error -> re_sub pattern repl text = Raise re_error.
Proof. intros H. unfold re_sub. by rewrite H. Qed.

(** One letter as pattern: every occurrence of it is replaced. *)
Lemma sub_from_letter a (repl s : pystr) :
  sub_from [[One (Lit a)]] repl O s = replace_letter a repl s.
Proof.
  induction s as [|c s IH]; [reflexivity|].
  cbn [sub_from search_at flat_map matches accepts replace_letter].
  rewrite (N.eqb_sym c a). destruct (a =? c); cbn; by rewrite IH.
Qed.

Lemma re_sub_letter a (repl s : pystr) :
  re_compile [a] = Return [[One (Lit a)]] ->
  re_sub [a] repl s = Return (replace_letter a repl s).
Proof. intros H. unfold re_sub. rewrite H. cbn. by rewrite sub_from_letter. Qed.

(** Line 194. *)
Lemma sub_from_space_eol (s : pystr) :
  sub_from [[One (Lit 32); AtEnd]] [] O s = strip_space_eol s.
Proof.
  induction s as [|c s IH]; [reflexivity|].
  cbn [sub_from search_at flat_map matches accepts strip_space_eol].
  rewrite (N.eqb_sym c 32). destruct (32 =? c); cbn; [|by rewrite IH].
  destruct (at_eol s) eqn:Heol; cbn; [|by rewrite IH].
  rewrite IH. destruct s as [|x [|y s]]; try discriminate; [reflexivity|].
  cbn in Heol. by apply N.eqb_eq in Heol as ->.
Qed.

Lemma re_sub_space_eol (s : pystr) : re_sub (str " $") [] s = Return (strip_space_eol s).
Proof.
  unfold re_sub. change (re_compile (str " $")) with (Return [[One (Lit 32); AtEnd]]).
  cbn. by rewrite sub_from_space_eol.
Qed.

Lemma at_eol_snoc_space (s : pystr) : at_eol (s ++ [32]) = false.
Proof. by destruct s as [|a [|b s]]. Qed.


Lemma strip_space_eol_space (s : pystr) : strip_space_eol (s ++ [32]) = s.
Proof.
  induction s as [|a s IH]; [reflexivity|]. cbn.
  by rewrite at_eol_snoc_space, andb_false_r, IH.
Qed.


Lemma strip_space_eol_other (s : pystr) :
  (forall t, s <> t ++ [32] ∧ s <> t ++ [32; 10]) -> strip_space_eol s = s.
Proof.
  induction s as [|c s IH]; intros H; [reflexivity|]. cbn.
  destruct ((c =? 32) && at_eol s) eqn:E.
  - exfalso. apply andb_true_iff in E as [Hc Hs]. apply N.eqb_eq in Hc as ->.
    destruct s as [|x [|y s]]; try discriminate.
    + by apply (proj1 (H [])).
    + cbn in Hs. apply N.eqb_eq in Hs as ->. by apply (proj2 (H [])).
  - f_equal. apply IH. intros t. split; intros ->.
    + by apply (proj1 (H (c :: t))).
    + by apply (proj2 (H (c :: t))).
Qed.

(** ** The cascades

    The first pattern of every branch does not compile: the branch raises
    before it has looked at the text. *)

Ltac first_pattern_raises :=
  cbv zeta; rewrite re_sub_error by (vm_compute; reflexivity); reflexivity.

Lemma branch_en_raises (text : pystr) : branch_en text = Raise re_error.
Proof. unfold branch_en. first_pattern_raises. Qed.

Lemma branch_fr_raises `{Libraries} (text : pystr) : branch_fr text = Raise re_error.
Proof. unfold branch_fr. first_pattern_raises. Qed.

Lemma branch_de_raises (text : pystr) : branch_de text = Raise re_error.
Proof. unfold branch_de. first_pattern_raises. Qed.

Lemma branch_it_raises `{Libraries} v (text : pystr) : branch_it v text = Raise re_error.
Proof. unfold branch_it. first_pattern_raises. Qed.

Lemma branch_es_raises `{Libraries} v (text : pystr) : branch_es v text = Raise re_error.
Proof. unfold branch_es. first_pattern_raises. Qed.

Lemma branch_ca_raises `{Libraries} v (text : pystr) : branch_ca v text = Raise re_error.
Proof. unfold branch_ca. first_pattern_raises. Qed.

Lemma branch_pl_raises `{Libraries} v (text : pystr) : branch_pl v text = Raise re_error.
Proof. unfold branch_pl. first_pattern_raises. Qed.

Lemma branch_ru_raises lang (text : pystr) : branch_ru lang text = Raise re_error.
Proof. unfold branch_ru. first_pattern_raises. Qed.

Lemma normalize_text_raises `{Libraries} v lang (sentence : pystr) :
  lang ∈ supported -> normalize_text v lang (Str sentence) = Raise re_error.
Proof.
  intros Hl. unfold normalize_text. cbn [sentence_lower bind].
  rewrite branch_en_raises, branch_fr_raises, branch_de_raises, branch_it_raises,
    branch_es_raises, branch_ca_raises, branch_pl_raises, branch_ru_raises.
  each_language Hl; reflexivity.
Qed.

Lemma normalize_text_not_str `{Libraries} v lang :
  normalize_text v lang NotStr = Raise AttributeError.
Proof. reflexivity. Qed.

Lemma normalize_raises `{Libraries} lang (sentence : pystr) :
  lang ∈ supported -> normalize lang sentence = Raise re_error.
Proof. apply normalize_text_raises. Qed.

(** In "en" the apostrophe rules of lines 92 and 93 come after the collapse
    of line 91 (in the other branches the collapse is the last rule): these
    lines and line 194 make two spaces of " ' ", and one space when they are
    run again. *)
Lemma english_apostrophe_after_collapse :
  (text <- re_sub (str "\s+") (str " ") (str "a ' b") ;;
   text <- re_sub (str " '") (str " ") text ;;
   text <- re_sub (str "' ") (str " ") text ;;
   re_sub (str " $") [] text) = Return (str "a  b")
  ∧ (text <- re_sub (str "\s+") (str " ") (str "a  b") ;;
     text <- re_sub (str " '") (str " ") text ;;
     text <- re_sub (str "' ") (str " ") text ;;
     re_sub (str " $") [] text) = Return (str "a b").
Proof. split; vm_compute; reflexivity. Qed.

(** ** The claims about the normalisation *)

(** C2 (what the code does): for every supported language and every
    sentence the normalisation raises [re.error], and so does the encoding
    of the normalised sentence: no character is ever looked up in the
    vocabulary. *)
Theorem encode_normalize_raises `{Libraries} lang (sentence : pystr) :
  lang ∈ supported ->
  normalize lang sentence = Raise re_error
  ∧ (text <- normalize lang sentence ;; encode lang text) = Raise re_error.
Proof. intros Hl. by rewrite normalize_raises. Qed.


(** C6 (what the code does): for every supported language and every
    sentence the normalisation raises [re.error]; no text comes out of a
    first pass, and a second pass has nothing to run on. *)
Theorem normalize_twice_raises `{Libraries} lang (sentence : pystr) :
  lang ∈ supported ->
  normalize lang sentence = Raise re_error
  ∧ (forall text, normalize lang sentence <> Return text)
  ∧ (text <- normalize lang sentence ;; normalize lang text) = Raise re_error.
Proof. intros Hl. rewrite normalize_raises by done. by repeat split. Qed.

(** C7 (what the code does): the normalisation of "Hello, World!" in "en"
    raises [re.error].  The English vocabulary is the space, the letters a
    to z and the apostrophe; the text "hello world" is encoded as the
    indices of h, e, l, l, o, space, w, o, r, l, d, with 1 for a and 0 for
    the space. *)
Theorem hello_world `{Libraries} :
  normalize "en" (str "Hello, World!") = Raise re_error
  ∧ vocabulary "en" = map (fun c => [c]) (str " abcdefghijklmnopqrstuvwxyz'")
  ∧ encode "en" (str "hello world")
    = Return [8; 5; 12; 12; 15; 0; 23; 15; 18; 12; 4]%nat
  ∧ encode "en" (str "a") = Return [1%nat]
  ∧ encode "en" (str " ") = Return [0%nat].
Proof.
  split; [apply normalize_raises; by left|].
  repeat split; vm_compute; reflexivity.
Qed.

(** C9 (what the code does): for "pl" the normalisation of every sentence
    raises [re.error] at the first line of the branch, before the lines of
    the three letters are reached.  Taken alone, these lines replace every q
    by k, every x by ks and every v by w. *)
Theorem polish_rules_never_run `{Libraries} (sentence text : pystr) :
  normalize "pl" sentence = Raise re_error
  ∧ branch_pl (vocabulary "pl") text = Raise re_error
  ∧ re_sub (str "q") (str "k") text = Return (replace_letter 113 (str "k") text)
  ∧ re_sub (str "x") (str "ks") text = Return (replace_letter 120 (str "ks") text)
  ∧ re_sub (str "v") (str "w") text = Return (replace_letter 118 (str "w") text).
Proof.
  split; [apply normalize_raises; set_solver|].
  split; [apply branch_pl_raises|].
  repeat split; by apply re_sub_letter.
Qed.

(** C10 (what the code does): for "ru" and for "ru34" the normalisation of
    every sentence raises [re.error], and so does, on every text, the
    substitution of line 192 that "ru34" adds. *)
Theorem ru34_and_ru_raise `{Libraries} (sentence text : pystr) :
  normalize "ru" sentence = Raise re_error
  ∧ normalize "ru34" sentence = Raise re_error
  ∧ re_sub merged_letter merged_into text = Raise re_error.
Proof.
  split; [apply normalize_raises; set_solver|].
  split; [apply normalize_raises; set_solver|].
  by apply re_sub_error.
Qed.

(** ** The constructor *)

(** In a supported language only an empty table gets through the loop: the
    first row ends it. *)
Lemma clips_loop_supported `{Libraries} v lang (clips : pystr) rows d :
  lang ∈ supported ->
  clips_loop v lang clips rows d
  = match rows with
    | [] => (d, Return [])
    | row :: _ => (d, Raise (first_row_exception clips d row))
    end.
Proof.
  intros Hl. destruct rows as [|[[clip|] sentence] rows]; cbn [clips_loop first_row_exception];
    try reflexivity.
  destruct (negb (path_exists d (mp3_file_path clips clip))); [reflexivity|].
  destruct sentence as [s|]; [|reflexivity].
  by rewrite normalize_text_raises.
Qed.

Lemma McvDataset_init_unsupported `{Libraries} (root : pystr) lang (subset : pystr) d :
  lang ∉ supported -> McvDataset_init root lang subset d = (d, Raise AssertionError).
Proof.
  intros Hl. unfold McvDataset_init. by rewrite bool_decide_eq_false_2.
Qed.

Lemma McvDataset_init_supported `{Libraries} (root : pystr) lang (subset : pystr) d :
  lang ∈ supported ->
  McvDataset_init root lang subset d
  = if files_present root lang subset d
    then match read_csv (metainfo_file_path root lang subset) with
         | [] => (d, Return (vocabulary lang, []))
         | row :: _ => (d, Raise (first_row_exception (clips_dir_path root lang) d row))
         end
    else (d, Raise AssertionError).
Proof.
  intros Hl. unfold McvDataset_init, files_present.
  rewrite bool_decide_eq_true_2 by done. cbn [negb].
  rewrite (get_vocabulary_supported lang Hl).
  destruct (path_exists d (expanduser root)); [|reflexivity].
  destruct (path_exists d (data_dir_path root lang)); [|reflexivity].
  destruct (path_exists d (metainfo_file_path root lang subset)); [|reflexivity].
  destruct (path_exists d (clips_dir_path root lang)); [|reflexivity].
  cbn [negb andb]. cbv zeta. rewrite clips_loop_supported by done.
  by destruct (read_csv _).
Qed.


(** X3: the constructor returns exactly when the language is supported, the
    four paths of lines 55 to 73 exist and the table has no row; it then
    stores the vocabulary of the language and no data, and leaves the disk
    as it is. *)
Theorem McvDataset_init_returns `{Libraries} (root : pystr) lang (subset : pystr) d d' v data :
  McvDataset_init root lang subset d = (d', Return (v, data))
  <-> lang ∈ supported
      ∧ files_present root lang subset d = true
      ∧ read_csv (metainfo_file_path root lang subset) = []
      ∧ d' = d ∧ v = vocabulary lang ∧ data = [].
Proof.
  destruct (decide (lang ∈ supported)) as [Hl|Hl].
  - rewrite McvDataset_init_supported by done.
    destruct (files_present root lang subset d).
    + destruct (read_csv _) as [|row rows].
      * split; [by intros [= <- <- <-]|]. by intros (_ & _ & _ & -> & -> & ->).
      * split; [discriminate|]. by intros (_ & _ & ? & _).
    + split; [discriminate|]. by intros (_ & ? & _).
  - rewrite McvDataset_init_unsupported by done.
    split; [discriminate|]. by intros (? & _).
Qed.

(** X4: in a supported language, with the four paths there, the first row
    of the table decides: a path that is no string is a [TypeError] (line
    76), else a clip that is missing an [AssertionError] (line 77), else a
    sentence that is no string an [AttributeError] (line 82), else the first
    substitution of the language raises [re.error]; the later rows are not
    looked at and the disk is left as it is. *)
Theorem McvDataset_init_first_row `{Libraries} (root : pystr) lang (subset : pystr) d row rows :
  lang ∈ supported ->
  files_present root lang subset d = true ->
  read_csv (metainfo_file_path root lang subset) = row :: rows ->
  McvDataset_init root lang subset d
  = (d, Raise (first_row_exception (clips_dir_path root lang) d row)).
Proof.
  intros Hl Hf Hr. rewrite McvDataset_init_supported by done. by rewrite Hf, Hr.
Qed.

(** X19: the constructor never writes: whatever it returns or raises, for
    every language, it leaves the disk as it found it. *)
Theorem McvDataset_init_keeps_disk `{Libraries} (root : pystr) lang (subset : pystr) d :
  (McvDataset_init root lang subset d).1 = d.
Proof.
  destruct (decide (lang ∈ supported)) as [Hl|Hl].
  - rewrite McvDataset_init_supported by done.
    destruct (files_present root lang subset d); [|reflexivity].
    by destruct (read_csv _).
  - by rewrite McvDataset_init_unsupported.
Qed.

(** ** The files

    What follows holds of the loop as it is written, whatever the
    substitutions do. *)




Lemma starts_with_elem (p s : pystr) c : starts_with p s = true -> c ∈ p -> c ∈ s.
Proof.
  revert s. induction p as [|a p IH]; intros [|b s] Hs Hc; cbn in Hs;
    try done; try by apply elem_of_nil in Hc.
  apply andb_true_iff in Hs as [Hab Hp]. apply N.eqb_eq in Hab as ->.
  apply elem_of_cons in Hc as [->|Hc]; [by left|right; by apply IH].
Qed.

(** A replacement whose [old] cannot occur changes nothing. *)
Lemma str_replace_no_match (old new s : pystr) c :
  c ∈ old -> c ∉ s -> str_replace old new s = s.
Proof.
  unfold str_replace. intros Hold. induction s as [|x s IH]; intros Hs; cbn; [reflexivity|].
  destruct old as [|a old]; [by apply elem_of_nil in Hold|].
  destruct (starts_with (a :: old) (x :: s)) eqn:Hst.
  - exfalso. apply Hs. by apply (starts_with_elem (a :: old)).
  - f_equal. apply IH. intros Hin. apply Hs. by right.
Qed.

Lemma wav_file_name_no_dot (name : pystr) : 46 ∉ name -> wav_file_name name = name.
Proof.
  intros Hn. unfold wav_file_name. apply (str_replace_no_match _ _ _ 46); [by left|exact Hn].
Qed.

(** X12: the name of the [.wav] file of a clip: a name that ends with ".mp3"
    and has no other dot gets ".wav" in its place, and a name without a dot
    is its own [.wav] name. *)
Theorem wav_file_name_of_mp3 (base : pystr) :
  46 ∉ base ->
  wav_file_name (base ++ str ".mp3") = base ++ str ".wav" ∧ wav_file_name base = base.
Proof.
  intros Hn. split; [|by apply wav_file_name_no_dot].
  unfold wav_file_name, str_replace.
  induction base as [|c base IH]; [reflexivity|].
  apply not_elem_of_cons in Hn as [Hc Hn]. cbn [app replace_from].
  change (starts_with (str ".mp3") (c :: base ++ str ".mp3"))
    with ((46 =? c) && starts_with (str "mp3") (base ++ str ".mp3")).
  destruct (N.eqb_spec 46 c) as [E|E]; [congruence|]. cbn [andb]. f_equal. by apply IH.
Qed.






(** ** The meta-information *)


(** ** The collapse of white space *)

Lemma counts_greedy_plus (m : nat) :
  counts 1 None false (S m) = S m :: counts 1 None false m.
Proof.
  unfold counts. cbn [Nat.sub]. rewrite !Nat.sub_0_r.
  rewrite seq_S, reverse_snoc. reflexivity.
Qed.

Lemma search_at_whitespace (s : pystr) :
  search_at [[Repeat 1 None false Whitespace]] s
  = match run_length Whitespace s with
    | O => []
    | S m => S (m + 0) :: map (fun n => (n + 0)%nat) (counts 1 None false m)
    end.
Proof.
  unfold search_at. cbn [flat_map matches]. rewrite app_nil_r.
  destruct (run_length Whitespace s) as [|m]; [reflexivity|].
  rewrite counts_greedy_plus. cbn [flat_map map app]. f_equal.
Qed.

Lemma sub_from_whitespace (s : pystr) :
  sub_from [[Repeat 1 None false Whitespace]] [32] O s = collapse_from false s
  ∧ sub_from [[Repeat 1 None false Whitespace]] [32] (run_length Whitespace s) s
    = collapse_from true s.
Proof.
  induction s as [|c s [IH0 IHrun]]; [by split|].
  cbn [sub_from]. rewrite search_at_whitespace.
  cbn [run_length accepts collapse_from]. destruct (isspace c).
  - rewrite Nat.add_0_r. cbn [app]. by rewrite IHrun.
  - by rewrite IH0.
Qed.

Lemma re_sub_collapse (s : pystr) :
  re_sub (str "\s+") (str " ") s = Return (collapse_from false s).
Proof.
  unfold re_sub.
  change (re_compile (str "\s+")) with (Return [[Repeat 1 None false Whitespace]]).
  cbn [bind]. f_equal. apply sub_from_whitespace.
Qed.

Lemma collapse_from_tidy (s : pystr) : forall b, tidy_from b (collapse_from b s) = true.
Proof.
  induction s as [|c s IH]; intros b; cbn; [reflexivity|].
  destruct (isspace c) eqn:Hc.
  - destruct b; [apply IH|]. cbn. change (isspace 32) with true. cbn. apply IH.
  - cbn. rewrite Hc. apply IH.
Qed.

Lemma tidy_collapse_from (s : pystr) : forall b,
  tidy_from b s = true -> collapse_from b s = s.
Proof.
  induction s as [|c s IH]; intros b; cbn; [reflexivity|].
  destruct (isspace c) eqn:Hc.
  - intros Ht. apply andb_true_iff in Ht as [Hcb Ht]. apply andb_true_iff in Hcb as [H32 Hb].
    apply N.eqb_eq in H32 as ->. destruct b; [discriminate|]. by rewrite (IH true Ht).
  - intros Ht. by rewrite (IH false Ht).
Qed.

Lemma tidy_from_app (s1 s2 : pystr) : forall b,
  tidy_from b (s1 ++ s2) = true -> tidy_from b s1 = true.
Proof.
  induction s1 as [|c s1 IH]; intros b; cbn; [reflexivity|].
  destruct (isspace c).
  - intros Ht. apply andb_true_iff in Ht as [Hcb Ht]. rewrite Hcb. cbn. by apply (IH true).
  - apply IH.
Qed.

Lemma tidy_from_two_spaces (s : pystr) : forall b,
  tidy_from b (s ++ [32; 32]) = false.
Proof.
  induction s as [|c s IH]; intros b; cbn.
  - change (isspace 32) with true. cbn. apply andb_false_r.
  - destruct (isspace c); [|apply IH]. rewrite (IH true). apply andb_false_r.
Qed.

Lemma tidy_from_no_newline (s : pystr) : forall b,
  tidy_from b s = true -> 10 ∉ s.
Proof.
  induction s as [|c s IH]; intros b; cbn; [intros _; apply not_elem_of_nil|].
  destruct (isspace c) eqn:Hc.
  - intros Ht. apply andb_true_iff in Ht as [Hcb Ht]. apply andb_true_iff in Hcb as [H32 _].
    apply N.eqb_eq in H32 as ->. apply not_elem_of_cons. split; [done|by apply (IH true)].
  - intros Ht. apply not_elem_of_cons. split; [|by apply (IH false)].
    intros <-. discriminate.
Qed.

Lemma tidy_from_spaces (s : pystr) : forall b,
  tidy_from b s = true ->
  Forall (fun c => isspace c = true -> c = 32) s
  ∧ (b = true -> head s <> Some 32)
  ∧ forall i, s !! i = Some 32 -> s !! S i <> Some 32.
Proof.
  induction s as [|c s IH]; intros b; cbn.
  - intros _. split; [constructor|]. split; [done|]. intros i Hi. discriminate.
  - destruct (isspace c) eqn:Hc.
    + intros Ht. apply andb_true_iff in Ht as [Hcb Ht].
      apply andb_true_iff in Hcb as [H32 Hb].
      apply N.eqb_eq in H32 as ->. destruct (IH true Ht) as (HF & Hh & Hadj).
      split; [by constructor|]. split.
      * intros ->. discriminate.
      * intros [|i]; cbn; [|apply Hadj]. intros _.
        specialize (Hh eq_refl). by destruct s.
    + intros Ht. destruct (IH false Ht) as (HF & _ & Hadj).
      split; [constructor; [congruence|exact HF]|]. split.
      * intros _ [= ->]. vm_compute in Hc. discriminate.
      * intros [|i]; cbn; [|apply Hadj]. intros [= ->]. vm_compute in Hc. discriminate.
Qed.

(** What the stripping leaves of a tidy text: a tidy text that does not end
    with a space. *)
Lemma tidy_stripped (s : pystr) :
  tidy_from false s = true ->
  tidy_from false (strip_space_eol s) = true ∧ last (strip_space_eol s) <> Some 32.
Proof.
  intros Ht. pose proof (tidy_from_no_newline s false Ht) as Hnl.
  destruct (decide (last s = Some 32)) as [Hl|Hl].
  - apply last_Some in Hl as [s' ->]. rewrite strip_space_eol_space.
    split; [by apply (tidy_from_app s' [32])|].
    intros Hl. apply last_Some in Hl as [s'' ->].
    rewrite <- app_assoc in Ht. cbn in Ht. by rewrite tidy_from_two_spaces in Ht.
  - rewrite strip_space_eol_other; [by split|].
    intros t. split; intros ->.
    + apply Hl. by rewrite last_snoc.
    + apply Hnl. rewrite elem_of_app. right. set_solver.
Qed.

(** X20: the collapse of white space (the pattern "\s+", the last rule of
    every branch but that of "en") followed by the stripping of line 194
    gives a text without white space but single spaces: every white-space
    character of it is a space, no space follows another, and the text does
    not end with a space (it may begin with one).  Run again on this text,
    the two rules change nothing. *)
Theorem collapse_and_strip (text : pystr) :
  exists collapsed stripped : pystr,
    re_sub (str "\s+") (str " ") text = Return collapsed
    ∧ re_sub (str " $") [] collapsed = Return stripped
    ∧ Forall (fun c => isspace c = true -> c = 32) stripped
    ∧ (forall i, stripped !! i = Some 32 -> stripped !! S i <> Some 32)
    ∧ last stripped <> Some 32
    ∧ re_sub (str "\s+") (str " ") stripped = Return stripped
    ∧ re_sub (str " $") [] stripped = Return stripped.
Proof.
  exists (collapse_from false text), (strip_space_eol (collapse_from false text)).
  split; [apply re_sub_collapse|]. split; [apply re_sub_space_eol|].
  destruct (tidy_stripped _ (collapse_from_tidy text false)) as [Ht Hl].
  destruct (tidy_from_spaces _ false Ht) as (HF & _ & Hadj).
  split; [exact HF|]. split; [exact Hadj|]. split; [exact Hl|].
  split.
  - rewrite re_sub_collapse. f_equal. by apply tidy_collapse_from.
  - rewrite re_sub_space_eol. f_equal. apply strip_space_eol_other.
    intros t. split; intros Heq; rewrite Heq in *.
    + apply Hl. by rewrite last_snoc.
    + apply (tidy_from_no_newline _ false Ht). rewrite elem_of_app. right. set_solver.
Qed.

(** ** The theorems on concrete inputs

    The libraries and the disk defined above; the lemmas below apply the
    theorems to them. *)

#[local] Existing Instance a_library.

(** Against C1 as the spec states it: the exception raised for a digit is the
    same value for two languages, so it does not tell the language. *)
Lemma encode_error_without_language :
  encode "en" (str "1") = Raise (KeyError 49)
  ∧ encode "de" (str "1") = Raise (KeyError 49).
Proof. split; vm_compute; reflexivity. Qed.



Lemma encode_normalize_raises_witness :
  normalize "en" (str "a") = Raise re_error
  ∧ (text <- normalize "en" (str "a") ;; encode "en" text) = Raise re_error.
Proof.
  apply (encode_normalize_raises "en" (str "a")).
  apply (bool_decide_unpack _). vm_compute. exact I.
Defined.

Lemma decode_encode_witness :
  exists label,
    encode "en" (str "hello world") = Return label
    ∧ decode "en" label = Some (str "hello world").
Proof.
  apply (decode_encode "en" (str "hello world")).
  apply (bool_decide_unpack _). vm_compute. exact I.
Defined.

Lemma normalize_twice_raises_witness :
  normalize "en" (str "hello world") = Raise re_error
  ∧ (forall text, normalize "en" (str "hello world") <> Return text)
  ∧ (text <- normalize "en" (str "hello world") ;; normalize "en" text) = Raise re_error.
Proof.
  apply (normalize_twice_raises "en" (str "hello world")).
  apply (bool_decide_unpack _). vm_compute. exact I.
Defined.

Lemma encode_injective_witness :
  encode "en" (str "ab") = Return [1; 2]%nat
  ∧ encode "en" (str "ba") = Return [2; 1]%nat
  ∧ [1; 2]%nat <> [2; 1]%nat.
Proof.
  assert (encode "en" (str "ab") = Return [1; 2]%nat) as H1 by (vm_compute; reflexivity).
  assert (encode "en" (str "ba") = Return [2; 1]%nat) as H2 by (vm_compute; reflexivity).
  split; [exact H1|]. split; [exact H2|].
  apply (encode_injective "en" (str "ab") (str "ba") _ _ H1 H2). discriminate.
Defined.

Lemma McvDataset_init_first_row_witness :
  McvDataset_init (str "r") "en" (str "dev") a_disk = (a_disk, Raise re_error).
Proof.
  apply (McvDataset_init_first_row (str "r") "en" (str "dev") a_disk
           (Str (str "a.mp3"), Str (str "Hello, World!")) [(Str (str "c"), NotStr)]).
  - apply (bool_decide_unpack _). vm_compute. exact I.
  - vm_compute. reflexivity.
  - vm_compute. reflexivity.
Defined.

Lemma shared_indices_witness :
  encode "fr" [32] = Return [0%nat]
  ∧ ("fr" ∈ ["en"; "fr"; "de"; "it"; "es"; "ca"]%string ->
     forall c, 97 <= c ∧ c <= 122 -> encode "fr" [c] = Return [N.to_nat (c - 96)]).
Proof.
  apply (shared_indices "fr").
  apply (bool_decide_unpack _). vm_compute. exact I.
Defined.


Lemma wav_file_name_of_mp3_witness :
  wav_file_name (str "common_voice_en_1" ++ str ".mp3") = str "common_voice_en_1" ++ str ".wav"
  ∧ wav_file_name (str "common_voice_en_1") = str "common_voice_en_1".
Proof.
  apply (wav_file_name_of_mp3 (str "common_voice_en_1")).
  apply (bool_decide_unpack _). vm_compute. exact I.
Defined.



